(** * Frontend (proxy) API controller and setting service

    A shallow embedding of [src/lib/routes/proxy-api/index.ts]
    ([ProxyController]) and of the setting service that ships in the same
    source unit ([SettingService]), together with the properties the
    specification states about them.

    Asynchronous methods are embedded as programs of a state-and-exception
    monad: [await e] is sequencing, a rejected promise is [Throw]. *)

From Stdlib Require Import ZArith String List Bool.
From stdpp Require Import base option list gmap strings pretty.

#[local] Set Warnings "-register-all".
Local Open Scope Z_scope.
Local Open Scope string_scope.

(** ** Programs: state passing with exceptions *)

(** What a JavaScript [throw] (or a rejected promise) carries. *)
Inductive Error : Type :=
| JsError (name message : string).

Inductive Outcome (A : Type) : Type :=
| Ok (a : A)
| Throw (e : Error).
Arguments Ok {A} a.
Arguments Throw {A} e.

Definition is_ok {A} (r : Outcome A) : bool :=
  match r with Ok _ => true | Throw _ => false end.

(** A program over a world [W]: it returns normally or throws, and hands
    back the world it leaves behind in both cases. *)
Definition Prog (W A : Type) : Type := W -> Outcome A * W.

Definition prog_ret {W A} (a : A) : Prog W A := fun w => (Ok a, w).

(** [await m; k]: run [m]; when it throws, the rest is skipped and the
    exception propagates. *)
Definition prog_bind {W A B} (k : A -> Prog W B) (m : Prog W A) : Prog W B :=
  fun w =>
    match m w with
    | (Ok a, w') => k a w'
    | (Throw e, w') => (Throw e, w')
    end.

#[global] Instance Prog_ret {W} : MRet (Prog W) := @prog_ret W.
#[global] Instance Prog_bind {W} : MBind (Prog W) := @prog_bind W.

(** ** JavaScript values of a parsed query string *)

(** The values Express puts in [req.query] (and JSON documents built from
    string literals): strings, arrays and nested objects. *)
Inductive JsValue : Type :=
| JStr (s : string)
| JArr (items : list JsValue)
| JObj (fields : list (string * JsValue)).

(** A mutable object: its own enumerable properties. *)
Abbreviation JsObject := (gmap string JsValue).

(** ECMAScript [ToBoolean] on these values; a missing property reads as
    [undefined], here [None]. *)
Definition truthy (v : option JsValue) : bool :=
  match v with
  | None => false
  | Some (JStr EmptyString) => false
  | Some _ => true
  end.

(** [a || b] where [a] is a property read. *)
Definition js_or (a : option JsValue) (b : JsValue) : JsValue :=
  match a with
  | Some v => if truthy (Some v) then v else b
  | None => b
  end.

(** ** Express request and response *)

Definition loc := positive.

Record ApiUser : Type := { environment : string }.

(** [req.query] is a reference to an object of the heap; [req.ip] is the
    address observed by the transport. *)
Record ApiUserRequest (ReqBody : Type) : Type := {
  query : loc;
  ip : string;
  user : ApiUser;
  body : ReqBody
}.
Arguments query {ReqBody} _.
Arguments ip {ReqBody} _.
Arguments user {ReqBody} _.
Arguments body {ReqBody} _.

Inductive ResBody : Type :=
| NoBody
| JsonBody (v : JsValue)
| TextBody (s : string).

Record Response : Type := { statusCode : Z; resBody : ResBody }.

(** A response nothing was written to yet (Node's default status). *)
Definition fresh_response : Response := {| statusCode := 200; resBody := NoBody |}.

(** Reason phrases of the [statuses] package that Express consults. *)
Definition status_message (code : Z) : option string :=
  match code with
  | 200 => Some "OK"
  | 201 => Some "Created"
  | 202 => Some "Accepted"
  | 204 => Some "No Content"
  | 400 => Some "Bad Request"
  | 401 => Some "Unauthorized"
  | 403 => Some "Forbidden"
  | 404 => Some "Not Found"
  | 405 => Some "Method Not Allowed"
  | 500 => Some "Internal Server Error"
  | _ => None
  end.

(** [res.status(code)] *)
Definition res_status (code : Z) (res : Response) : Response :=
  {| statusCode := code; resBody := resBody res |}.

(** [res.json(obj)] *)
Definition res_json (obj : JsValue) (res : Response) : Response :=
  {| statusCode := statusCode res; resBody := JsonBody obj |}.

(** [res.sendStatus(code)]: Express sets the status code and sends the
    registered status message as the text body, or the code itself when the
    code is not registered. *)
Definition res_sendStatus (code : Z) (res : Response) : Response :=
  {| statusCode := code;
     resBody := TextBody (default (pretty code) (status_message code)) |}.

Definition body_is_empty (b : ResBody) : bool :=
  match b with
  | NoBody => true
  | TextBody EmptyString => true
  | _ => false
  end.

(** ** ProxyController *)

Module ProxyController.

Section Controller.
(** Opaque payloads: the metrics or registration body of a request and the
    toggle entries the evaluation service returns. *)
Context {ReqBody Toggle : Type}.

(** The evaluation context handed to the evaluation service: the key/value
    pairs of the query. *)
Abbreviation Context := (gmap string JsValue).

(** Calls the controller issues to its collaborators. *)
Inductive ServiceCall : Type :=
| ProxyService_getProxyFeatures (u : ApiUser) (context : Context)
| ProxyService_registerProxyMetrics (u : ApiUser) (metrics : ReqBody) (ip : string)
| OpenApiService_respondWithValidation (status : Z) (schema : string)
    (toggles : list Toggle).

(** What a handler can observe and change: the heap of request objects and
    the collaborators, seen through the log of calls made to them. *)
Record World : Type := {
  heap : gmap loc (gmap string JsValue);
  calls : list ServiceCall
}.

(** The collaborators, as interfaces: what they answer. *)
Record ProxyService : Type := {
  getProxyFeatures_answer : ApiUser -> Context -> Outcome (list Toggle);
  registerProxyMetrics_answer : ApiUser -> ReqBody -> string -> Outcome unit
}.

Record OpenApiService : Type := {
  respondWithValidation_answer :
    Z -> Response -> string -> list Toggle -> Outcome Response
}.

Variable proxyService : ProxyService.
Variable openApiService : OpenApiService.

Definition log_call (c : ServiceCall) (w : World) : World :=
  {| heap := heap w; calls := calls w ++ [c] |}.

Definition proxyService_getProxyFeatures (u : ApiUser) (context : Context)
  : Prog World (list Toggle) :=
  fun w => (getProxyFeatures_answer proxyService u context,
            log_call (ProxyService_getProxyFeatures u context) w).

Definition proxyService_registerProxyMetrics (u : ApiUser) (metrics : ReqBody)
    (addr : string) : Prog World unit :=
  fun w => (registerProxyMetrics_answer proxyService u metrics addr,
            log_call (ProxyService_registerProxyMetrics u metrics addr) w).

Definition openApiService_respondWithValidation (status : Z) (res : Response)
    (schema : string) (toggles : list Toggle) : Prog World Response :=
  fun w => (respondWithValidation_answer openApiService status res schema toggles,
            log_call (OpenApiService_respondWithValidation status schema toggles) w).

(** *** Property access on heap objects *)

Definition TypeError : Error :=
  JsError "TypeError" "Cannot read properties of undefined".

(** [o.k] *)
Definition obj_get (o : loc) (k : string) : Prog World (option JsValue) :=
  fun w =>
    match heap w !! o with
    | Some props => (Ok (props !! k), w)
    | None => (Throw TypeError, w)
    end.

(** [o.k = v]: the object [o] refers to is updated in place. *)
Definition obj_set (o : loc) (k : string) (v : JsValue) : Prog World unit :=
  fun w =>
    match heap w !! o with
    | Some props =>
        (Ok tt, {| heap := <[o := <[k := v]> props]> (heap w); calls := calls w |})
    | None => (Throw TypeError, w)
    end.

(** Modelled from the spec: the imported helper [createContext] of
    [lib/proxy/create-context], which is not part of this source unit. The
    specification has the evaluation context start from the caller-supplied
    query key/value pairs with no field special-cased beyond
    [remoteAddress] and [environment], which the controller has set before
    the call: the context is the key/value pairs of the object it is given. *)
Definition lib_createContext (value : loc) : Prog World Context :=
  fun w =>
    match heap w !! value with
    | Some props => (Ok props, w)
    | None => (Throw TypeError, w)
    end.

(** *** Handlers *)

(** [ProxyController.createContext] *)
Definition createContext (req : ApiUserRequest ReqBody) : Prog World Context :=
  let query := query req in
  remoteAddress ← obj_get query "remoteAddress";
  obj_set query "remoteAddress" (js_or remoteAddress (JStr (ip req)));;
  obj_set query "environment" (JStr (environment (user req)));;
  lib_createContext query.

(** [ProxyController.endpointNotImplemented] *)
Definition endpointNotImplemented (req : ApiUserRequest ReqBody) (res : Response)
  : Prog World Response :=
  mret (res_json
          (JObj [("message", JStr "The frontend API does not support this endpoint.")])
          (res_status 405 res)).

(** [getProxyFeatures] *)
Definition getProxyFeatures (req : ApiUserRequest ReqBody) (res : Response)
  : Prog World Response :=
  context ← createContext req;
  toggles ← proxyService_getProxyFeatures (user req) context;
  openApiService_respondWithValidation 200 res "proxyFeaturesSchema.$id" toggles.

(** [registerProxyMetrics] *)
Definition registerProxyMetrics (req : ApiUserRequest ReqBody) (res : Response)
  : Prog World Response :=
  proxyService_registerProxyMetrics (user req) (body req) (ip req);;
  mret (res_sendStatus 200 res).

(** [ProxyController.registerProxyClient] *)
Definition registerProxyClient (req : ApiUserRequest ReqBody) (res : Response)
  : Prog World Response :=
  mret (res_sendStatus 200 res).

(** *** The route table built by the constructor *)

Inductive Method : Type := GET | POST.
Inductive Permission : Type := NONE.

Inductive Handler : Type :=
| GetProxyFeatures
| EndpointNotImplemented
| RegisterProxyMetrics
| RegisterProxyClient.

Inductive Middleware : Type :=
| CorsOriginMiddleware (origins : list string)
| ValidPath (operationId : string).

Record RouteOptions : Type := {
  method : Method;
  path : string;
  handler : Handler;
  permission : Permission;
  middleware : list Middleware
}.

Record IUnleashConfig : Type := { frontendApiOrigins : list string }.

(** What the constructor leaves installed on [this.app]: the middleware
    passed to [app.use] and the routes, in declaration order. *)
Record Router : Type := {
  uses : list Middleware;
  routes : list RouteOptions
}.

(** [constructor(config, services)] *)
Definition constructor (config : IUnleashConfig) : Router :=
  {| uses :=
       if (0 <? length (frontendApiOrigins config))%nat
       then [CorsOriginMiddleware (frontendApiOrigins config)]
       else [];
     routes :=
       [ {| method := GET; path := ""; handler := GetProxyFeatures;
            permission := NONE; middleware := [ValidPath "getFrontendFeatures"] |};
         {| method := POST; path := ""; handler := EndpointNotImplemented;
            permission := NONE; middleware := [] |};
         {| method := GET; path := "/client/features";
            handler := EndpointNotImplemented;
            permission := NONE; middleware := [] |};
         {| method := POST; path := "/client/metrics";
            handler := RegisterProxyMetrics;
            permission := NONE; middleware := [ValidPath "registerFrontendMetrics"] |};
         {| method := POST; path := "/client/register";
            handler := RegisterProxyClient;
            permission := NONE; middleware := [ValidPath "registerFrontendClient"] |};
         {| method := GET; path := "/health"; handler := EndpointNotImplemented;
            permission := NONE; middleware := [] |};
         {| method := GET; path := "/internal-backstage/prometheus";
            handler := EndpointNotImplemented;
            permission := NONE; middleware := [] |} ] |}.

Definition run_handler (h : Handler) (req : ApiUserRequest ReqBody) (res : Response)
  : Prog World Response :=
  match h with
  | GetProxyFeatures => getProxyFeatures req res
  | EndpointNotImplemented => endpointNotImplemented req res
  | RegisterProxyMetrics => registerProxyMetrics req res
  | RegisterProxyClient => registerProxyClient req res
  end.

Definition method_eqb (a b : Method) : bool :=
  match a, b with
  | GET, GET | POST, POST => true
  | _, _ => false
  end.

(** Modelled from the spec: route registration and matching belong to the
    base class [Controller] and to Express, which are not part of this
    source unit. The specification describes a fixed table of
    (method, path) entries evaluated in declaration order, with no specific
    permission required: the first declared entry with the requested
    method and path is the one that handles the request. *)
Definition lookup_route (r : Router) (m : Method) (p : string) : option RouteOptions :=
  List.find (fun o => method_eqb (method o) m && String.eqb (path o) p) (routes r).

(** Serving one request: the matching handler runs on a fresh response;
    [None] when the table has no entry for the request. *)
Definition serve (r : Router) (m : Method) (p : string) (req : ApiUserRequest ReqBody)
  : Prog World (option Response) :=
  match lookup_route r m p with
  | Some o => res ← run_handler (handler o) req fresh_response; mret (Some res)
  | None => mret None
  end.

(** *** Vocabulary of the properties *)

(** The query object as [createContext] leaves it. *)
Definition derived_query (req : ApiUserRequest ReqBody) (q : gmap string JsValue)
  : gmap string JsValue :=
  <["environment" := JStr (environment (user req))]>
    (<["remoteAddress" := js_or (q !! "remoteAddress") (JStr (ip req))]> q).

(** The endpoints the specification lists as stubs. *)
Definition stub_endpoints : list (Method * string) :=
  [ (POST, ""); (GET, "/client/features"); (GET, "/health");
    (GET, "/internal-backstage/prometheus") ].

(** What [endpointNotImplemented] writes on a fresh response. *)
Definition not_implemented : Response :=
  {| statusCode := 405;
     resBody :=
       JsonBody (JObj [("message",
                        JStr "The frontend API does not support this endpoint.")]) |}.

End Controller.

Arguments ServiceCall : clear implicits.
Arguments World : clear implicits.
Arguments ProxyService : clear implicits.
Arguments OpenApiService : clear implicits.

End ProxyController.

(** ** SettingService *)

Module SettingService.

(** Modelled from the spec: the event classes [SettingCreatedEvent],
    [SettingUpdatedEvent] and [SettingDeletedEvent] of [lib/types/events],
    which are not part of this source unit. An audit event is one of
    Created, Updated, Deleted, tagged with the acting principal and with the
    data the service passes, which holds the setting's key only. *)
Inductive EventType : Type := SETTING_CREATED | SETTING_UPDATED | SETTING_DELETED.

Record EventData : Type := { id : string }.

Record Event : Type := {
  type : EventType;
  createdBy : string;
  data : EventData
}.

Definition SettingCreatedEvent (createdBy : string) (data : EventData) : Event :=
  {| type := SETTING_CREATED; createdBy := createdBy; data := data |}.
Definition SettingUpdatedEvent (createdBy : string) (data : EventData) : Event :=
  {| type := SETTING_UPDATED; createdBy := createdBy; data := data |}.
Definition SettingDeletedEvent (createdBy : string) (data : EventData) : Event :=
  {| type := SETTING_DELETED; createdBy := createdBy; data := data |}.

Section Service.
(** [Value] is the opaque setting document; [S] and [E] are whatever state
    the two stores keep. *)
Context {Value S E : Type}.

(** [ISettingStore]: every method may fail and may change the store. *)
Record ISettingStore : Type := {
  impl_get : string -> S -> Outcome Value * S;
  impl_exists : string -> S -> Outcome bool * S;
  impl_updateRow : string -> Value -> S -> Outcome unit * S;
  impl_insert : string -> Value -> S -> Outcome unit * S;
  impl_delete : string -> S -> Outcome unit * S
}.

(** [IEventStore] *)
Record IEventStore : Type := {
  impl_store : Event -> E -> Outcome unit * E
}.

(** The calls the service issues to the two stores. *)
Inductive Call : Type :=
| SettingStore_get (id : string)
| SettingStore_exists (id : string)
| SettingStore_updateRow (id : string) (value : Value)
| SettingStore_insert (id : string) (value : Value)
| SettingStore_delete (id : string)
| EventStore_store (event : Event).

(** The world of the service: the state of both stores and the calls
    issued so far, oldest first, each with whether it returned normally. *)
Record World : Type := {
  settings : S;
  events : E;
  trace : list (Call * bool)
}.

Variable settingStore : ISettingStore.
Variable eventStore : IEventStore.

Definition on_settingStore {A} (c : Call) (op : S -> Outcome A * S) : Prog World A :=
  fun w =>
    let '(r, s') := op (settings w) in
    (r, {| settings := s'; events := events w; trace := trace w ++ [(c, is_ok r)] |}).

Definition on_eventStore {A} (c : Call) (op : E -> Outcome A * E) : Prog World A :=
  fun w =>
    let '(r, e') := op (events w) in
    (r, {| settings := settings w; events := e'; trace := trace w ++ [(c, is_ok r)] |}).

(** [this.settingStore.get(id)] and its siblings *)
Definition settingStore_get (id : string) : Prog World Value :=
  on_settingStore (SettingStore_get id) (impl_get settingStore id).
Definition settingStore_exists (id : string) : Prog World bool :=
  on_settingStore (SettingStore_exists id) (impl_exists settingStore id).
Definition settingStore_updateRow (id : string) (value : Value) : Prog World unit :=
  on_settingStore (SettingStore_updateRow id value) (impl_updateRow settingStore id value).
Definition settingStore_insert (id : string) (value : Value) : Prog World unit :=
  on_settingStore (SettingStore_insert id value) (impl_insert settingStore id value).
Definition settingStore_delete (id : string) : Prog World unit :=
  on_settingStore (SettingStore_delete id) (impl_delete settingStore id).

(** [this.eventStore.store(event)] *)
Definition eventStore_store (event : Event) : Prog World unit :=
  on_eventStore (EventStore_store event) (impl_store eventStore event).

(** [async get(id)] *)
Definition get (id : string) : Prog World Value :=
  settingStore_get id.

(** [async insert(id, value, createdBy)] *)
Definition insert (id : string) (value : Value) (createdBy : string) : Prog World unit :=
  exists_ ← settingStore_exists id;
  if (exists_ : bool) then
    (settingStore_updateRow id value;;
     eventStore_store (SettingUpdatedEvent createdBy {| id := id |}))
  else
    (settingStore_insert id value;;
     eventStore_store (SettingCreatedEvent createdBy {| id := id |})).

(** [async delete(id, createdBy)] *)
Definition delete (id : string) (createdBy : string) : Prog World unit :=
  settingStore_delete id;;
  eventStore_store (SettingDeletedEvent createdBy {| id := id |}).

(** *** Reading a trace *)

Definition is_write (c : Call) : bool :=
  match c with
  | SettingStore_updateRow _ _ | SettingStore_insert _ _ | SettingStore_delete _ => true
  | _ => false
  end.

(** The events handed to the event store in a trace, oldest first. *)
Fixpoint emitted (t : list (Call * bool)) : list Event :=
  match t with
  | [] => []
  | (EventStore_store e, _) :: t' => e :: emitted t'
  | _ :: t' => emitted t'
  end.

(** The writes issued to the setting store in a trace, with their outcome. *)
Definition writes (t : list (Call * bool)) : list (Call * bool) :=
  List.filter (fun cb => is_write (fst cb)) t.

(** Every emission in the trace has a write that returned normally before
    it. *)
Fixpoint emissions_follow_write (written : bool) (t : list (Call * bool)) : bool :=
  match t with
  | [] => true
  | (EventStore_store _, _) :: t' => written && emissions_follow_write written t'
  | (c, ok) :: t' => emissions_follow_write (written || (is_write c && ok)) t'
  end.

(** A run of [op] from [w] keeps the audit trail in step with the store:
    it only adds calls to the trace, every emission among them follows a
    write that returned normally, and when a write among them failed
    nothing is emitted and the event store is as before. *)
Definition audited_after_write (op : Prog World unit) (w : World) : Prop :=
  exists new : list (Call * bool),
    trace (snd (op w)) = (trace w ++ new)%list /\
    emissions_follow_write false new = true /\
    (forall c, In (c, false) (writes new) ->
               emitted new = [] /\ events (snd (op w)) = events w).

(** The write [insert] issues once the store has answered the existence
    check, and the event it emits after that write. *)
Definition upsert_write (present : bool) (id : string) (value : Value) : Call :=
  if present then SettingStore_updateRow id value else SettingStore_insert id value.

Definition upsert_event (present : bool) (createdBy : string) (id : string) : Event :=
  (if present then SettingUpdatedEvent else SettingCreatedEvent) createdBy {| id := id |}.

(** A run of [op] from [w] returns normally exactly when every store call
    it issued did. *)
Definition fails_iff_a_call_failed {A} (op : Prog World A) (w : World) : Prop :=
  exists new : list (Call * bool),
    trace (snd (op w)) = (trace w ++ new)%list /\
    is_ok (fst (op w)) = forallb snd new.

(** Modelled from the spec: what the service relies on from a key-value
    persistence. The implementations of [ISettingStore] are not part of
    this source unit; the specification describes the store as key-value
    persistence with existence check, insert, update and delete by key,
    where [get] and [exists] are queries. *)
Definition get_only_reads : Prop :=
  forall id s, snd (impl_get settingStore id s) = s.

Definition exists_only_reads : Prop :=
  forall id s, snd (impl_exists settingStore id s) = s.

(** A key reads back the value last written under it: after an insert that
    succeeded, and after an update of a key the store reports present. *)
Definition writes_read_back : Prop :=
  forall id v s s',
    impl_insert settingStore id v s = (Ok tt, s') \/
    (fst (impl_exists settingStore id s) = Ok true /\
     impl_updateRow settingStore id v s = (Ok tt, s')) ->
    fst (impl_get settingStore id s') = Ok v.

End Service.

Arguments ISettingStore : clear implicits.
Arguments IEventStore : clear implicits.
Arguments Call : clear implicits.
Arguments World : clear implicits.

End SettingService.

(** ** Stores held in memory *)

Module InMemory.

Import SettingService.

Section Stores.
Context {Value : Type}.

Definition NotFoundError : Error := JsError "NotFoundError" "No such setting".
Definition PersistenceFailure : Error := JsError "PersistenceFailure" "The store is offline".

(** Modelled from the spec: a [SettingStore] that keeps its rows in a finite
    map. The stores of the repository are not part of this source unit; the
    specification gives the store the methods [exists(key) -> bool],
    [insert(key, value)], [updateRow(key, value)], [delete(key)] and
    [get(key) -> value | NotFound]. *)
Definition memSettingStore : ISettingStore Value (gmap string Value) :=
  {| impl_get id s :=
       (match s !! id with Some v => Ok v | None => Throw NotFoundError end, s);
     impl_exists id s :=
       (Ok (match s !! id with Some _ => true | None => false end), s);
     impl_updateRow id v s := (Ok tt, alter (fun _ => v) id s);
     impl_insert id v s := (Ok tt, <[id := v]> s);
     impl_delete id s := (Ok tt, base.delete id s) |}.

(** Modelled from the spec: an [EventStore], an append-only sink that
    records the events it accepts in insertion order. *)
Definition memEventStore : IEventStore (list Event) :=
  {| impl_store event log := (Ok tt, (log ++ [event])%list) |}.

(** Modelled from the spec: a [SettingStore] every call of which fails
    with a persistence failure and changes nothing. *)
Definition offlineSettingStore : ISettingStore Value (gmap string Value) :=
  {| impl_get id s := (Throw PersistenceFailure, s);
     impl_exists id s := (Throw PersistenceFailure, s);
     impl_updateRow id v s := (Throw PersistenceFailure, s);
     impl_insert id v s := (Throw PersistenceFailure, s);
     impl_delete id s := (Throw PersistenceFailure, s) |}.

(** Modelled from the spec: an [EventStore] that rejects every event with a
    persistence failure and records nothing. *)
Definition offlineEventStore : IEventStore (list Event) :=
  {| impl_store event log := (Throw PersistenceFailure, log) |}.

End Stores.

(** A world with the given rows, no recorded event and no call issued. *)
Definition world_of (rows : gmap string string)
  : World string (gmap string string) (list Event) :=
  {| settings := rows; events := []; trace := [] |}.

End InMemory.

(** ** Sample requests *)

Module Samples.

Import ProxyController.

(** A request without query parameters, from [1.2.3.4], of a caller whose
    token belongs to the environment [prod]. *)
Definition bare_request : ApiUserRequest unit :=
  {| query := 1%positive; ip := "1.2.3.4";
     user := {| environment := "prod" |}; body := tt |}.

Definition world_with_query (q : gmap string JsValue) : World unit unit :=
  {| heap := {[ 1%positive := q ]}; calls := [] |}.

(** The query [?remoteAddress=9.9.9.9&environment=spoofed]. *)
Definition spoofed_query : gmap string JsValue :=
  <["remoteAddress" := JStr "9.9.9.9"]> (<["environment" := JStr "spoofed"]> ∅).

Definition idle_proxyService : ProxyService unit unit :=
  {| getProxyFeatures_answer _ _ := Ok [];
     registerProxyMetrics_answer _ _ _ := Ok tt |}.

(** An evaluation service that is down. *)
Definition failing_proxyService : ProxyService unit unit :=
  {| getProxyFeatures_answer _ _ := Throw (JsError "Error" "evaluation failed");
     registerProxyMetrics_answer _ _ _ := Throw (JsError "Error" "metrics failed") |}.

Definition idle_openApiService : OpenApiService unit :=
  {| respondWithValidation_answer status res _ _ := Ok (res_status status res) |}.

End Samples.

(** * Properties of the controller *)

Section ProxyControllerProperties.
Import ProxyController.
Context {ReqBody Toggle : Type}.
Variable proxyService : ProxyService ReqBody Toggle.
Variable openApiService : OpenApiService Toggle.

Implicit Types (req : ApiUserRequest ReqBody) (w : World ReqBody Toggle).
Implicit Types (q : gmap string JsValue).

Lemma createContext_run req w q :
  heap w !! query req = Some q ->
  createContext req w =
    (Ok (derived_query req q),
     {| heap := <[query req := derived_query req q]> (heap w); calls := calls w |}).
Proof.
  intros Hq.
  unfold createContext, mbind, Prog_bind, prog_bind, obj_get, obj_set,
    lib_createContext; cbn.
  rewrite Hq; cbn.
  rewrite Hq; cbn.
  rewrite lookup_insert_eq; cbn.
  rewrite lookup_insert_eq, !insert_insert_eq.
  reflexivity.
Qed.

Lemma js_or_kept (v b : JsValue) :
  v <> JStr "" -> js_or (Some v) b = v.
Proof.
  intros Hv. destruct v as [[|c s]| |]; cbn; congruence.
Qed.

Lemma derived_query_environment req q :
  derived_query req q !! "environment" = Some (JStr (environment (user req))).
Proof. unfold derived_query. apply lookup_insert_eq. Qed.

Lemma derived_query_remoteAddress req q :
  derived_query req q !! "remoteAddress"
  = Some (js_or (q !! "remoteAddress") (JStr (ip req))).
Proof.
  unfold derived_query.
  rewrite lookup_insert_ne by discriminate.
  apply lookup_insert_eq.
Qed.

Lemma derived_query_other req q k :
  k <> "remoteAddress" -> k <> "environment" ->
  derived_query req q !! k = q !! k.
Proof.
  intros Hra Henv. unfold derived_query.
  rewrite !lookup_insert_ne by congruence. reflexivity.
Qed.

(** The derived query does not depend on the [environment] entry the
    caller sent. *)
Lemma derived_query_ignores_environment req q q2 :
  base.delete "environment" q2 = base.delete "environment" q ->
  derived_query req q2 = derived_query req q.
Proof.
  intros Hdel.
  assert (Hsame : forall k, k <> "environment" -> q2 !! k = q !! k).
  { intros k Hk. apply (f_equal (fun m => m !! k)) in Hdel.
    rewrite !lookup_delete_ne in Hdel by congruence. exact Hdel. }
  apply map_eq; intros k.
  destruct (decide (k = "environment")) as [->|Henv].
  - rewrite !derived_query_environment. reflexivity.
  - destruct (decide (k = "remoteAddress")) as [->|Hra].
    + rewrite !derived_query_remoteAddress, Hsame by discriminate. reflexivity.
    + rewrite !derived_query_other by assumption. apply Hsame, Henv.
Qed.

(** C1. Whatever the query holds and whoever the caller is, the context
    built for a request has its [environment] equal to the environment of
    the authenticated identity, and so has the query object the controller
    hands to the imported helper; an [environment] sent in the query does
    not reach the context: two queries that differ in that entry only
    give the same context. *)
Theorem createContext_environment_is_identity req w q :
  heap w !! query req = Some q ->
  exists context w',
    createContext req w = (Ok context, w') /\
    context !! "environment" = Some (JStr (environment (user req))) /\
    (exists q', heap w' !! query req = Some q' /\
                q' !! "environment" = Some (JStr (environment (user req)))) /\
    (forall w2 q2,
        heap w2 !! query req = Some q2 ->
        base.delete "environment" q2 = base.delete "environment" q ->
        fst (createContext req w2) = Ok context).
Proof.
  intros Hq. eexists _, _. split; [apply createContext_run, Hq|].
  split; [apply derived_query_environment|].
  split.
  { eexists. split; [apply lookup_insert_eq | apply derived_query_environment]. }
  intros w2 q2 Hq2 Hdel.
  rewrite (createContext_run _ _ _ Hq2); cbn.
  f_equal. apply derived_query_ignores_environment, Hdel.
Qed.

(** C6. The [remoteAddress] of the context is the value the caller sent in
    the query when there is one and it is not the empty string; when the
    query has none, or an empty one, it is the source address observed by
    the transport ([req.ip]). *)
Theorem createContext_remoteAddress req w q :
  heap w !! query req = Some q ->
  exists context w',
    createContext req w = (Ok context, w') /\
    (forall v, q !! "remoteAddress" = Some v -> v <> JStr "" ->
               context !! "remoteAddress" = Some v) /\
    (q !! "remoteAddress" = None \/ q !! "remoteAddress" = Some (JStr "") ->
     context !! "remoteAddress" = Some (JStr (ip req))).
Proof.
  intros Hq. eexists _, _. split; [apply createContext_run, Hq|].
  rewrite derived_query_remoteAddress. split.
  - intros v Hv Hne. rewrite Hv, js_or_kept by exact Hne. reflexivity.
  - intros [-> | ->]; reflexivity.
Qed.

(** C3, as the code has it. The builder writes into the query object of
    the request: when it returns, that object holds the [remoteAddress]
    and the [environment] of the context, every other key of the query is
    as it was, no other object of the heap is touched and no collaborator
    was called. *)
Theorem createContext_updates_query_in_place req w q :
  heap w !! query req = Some q ->
  let w' := snd (createContext req w) in
  heap w' !! query req = Some (derived_query req q) /\
  (forall k, k <> "remoteAddress" -> k <> "environment" ->
             derived_query req q !! k = q !! k) /\
  (forall l, l <> query req -> heap w' !! l = heap w !! l) /\
  calls w' = calls w.
Proof.
  intros Hq. rewrite (createContext_run _ _ _ Hq); cbn.
  split; [apply lookup_insert_eq|].
  split; [intros k; apply derived_query_other|].
  split; [|reflexivity].
  intros l Hl. apply lookup_insert_ne. congruence.
Qed.

(** C7. A request for one of the stub endpoints is answered with status
    405 and a JSON body whose [message] is not empty, whatever the body
    and the query of the request, the configuration and the collaborators
    are; handling it changes nothing. *)
Theorem stub_endpoints_answer_405 config m p req w :
  In (m, p) stub_endpoints ->
  serve proxyService openApiService (constructor config) m p req w
    = (Ok (Some not_implemented), w) /\
  statusCode not_implemented = 405 /\
  exists message,
    resBody not_implemented = JsonBody (JObj [("message", JStr message)]) /\
    message <> "".
Proof.
  intros Hin. split.
  - cbn in Hin.
    destruct Hin as [H|[H|[H|[H|[]]]]]; inversion H; subst; reflexivity.
  - split; [reflexivity|]. eexists. split; [reflexivity|discriminate].
Qed.

(** C8, at any request. [POST /client/register] is answered with status
    200 and leaves the world as it was: the heap is untouched and no
    collaborator is called. The body of the answer is the text [OK] that
    [res.sendStatus] sends, not an empty body. *)
Theorem register_client_answers_200_OK config req w :
  serve proxyService openApiService (constructor config) POST "/client/register" req w
    = (Ok (Some {| statusCode := 200; resBody := TextBody "OK" |}), w) /\
  body_is_empty (TextBody "OK") = false.
Proof. split; reflexivity. Qed.

End ProxyControllerProperties.

(** C1 at the spoofed query of the specification. *)
Lemma createContext_environment_is_identity_witness :
  ProxyController.heap (Samples.world_with_query Samples.spoofed_query)
    !! query Samples.bare_request = Some Samples.spoofed_query /\
  exists context w',
    ProxyController.createContext Samples.bare_request
      (Samples.world_with_query Samples.spoofed_query) = (Ok context, w') /\
    context !! "environment" = Some (JStr "prod") /\
    (exists q', ProxyController.heap w' !! query Samples.bare_request = Some q' /\
                q' !! "environment" = Some (JStr "prod")) /\
    (forall (w2 : ProxyController.World unit unit) q2,
        ProxyController.heap w2 !! query Samples.bare_request = Some q2 ->
        base.delete "environment" q2 = base.delete "environment" Samples.spoofed_query ->
        fst (ProxyController.createContext Samples.bare_request w2) = Ok context).
Proof.
  split; [reflexivity|].
  apply (createContext_environment_is_identity Samples.bare_request
           (Samples.world_with_query Samples.spoofed_query) Samples.spoofed_query).
  reflexivity.
Defined.

(** C6 at the empty query of the specification: the observed address is
    filled in. *)
Lemma createContext_remoteAddress_witness :
  ProxyController.heap (Samples.world_with_query ∅)
    !! query Samples.bare_request = Some ∅ /\
  exists context w',
    ProxyController.createContext Samples.bare_request (Samples.world_with_query ∅)
      = (Ok context, w') /\
    (forall v, (∅ : gmap string JsValue) !! "remoteAddress" = Some v -> v <> JStr "" ->
               context !! "remoteAddress" = Some v) /\
    ((∅ : gmap string JsValue) !! "remoteAddress" = None \/
     (∅ : gmap string JsValue) !! "remoteAddress" = Some (JStr "") ->
     context !! "remoteAddress" = Some (JStr "1.2.3.4")).
Proof.
  split; [reflexivity|].
  apply (createContext_remoteAddress Samples.bare_request (Samples.world_with_query ∅) ∅).
  reflexivity.
Defined.

(** C3 fails on the code: a request without query parameters has an empty
    query object before the context is built and an object with two entries
    after. *)
Lemma createContext_changes_the_query :
  let w := Samples.world_with_query ∅ in
  let w' := snd (ProxyController.createContext Samples.bare_request w) in
  ProxyController.heap w !! query Samples.bare_request = Some ∅ /\
  ProxyController.heap w' !! query Samples.bare_request
    = Some (<["environment" := JStr "prod"]> (<["remoteAddress" := JStr "1.2.3.4"]> ∅)) /\
  ProxyController.heap w' !! query Samples.bare_request
    <> ProxyController.heap w !! query Samples.bare_request.
Proof.
  cbv zeta.
  assert (Hafter :
    ProxyController.heap
      (snd (ProxyController.createContext Samples.bare_request
              (Samples.world_with_query ∅))) !! query Samples.bare_request
    = Some (<["environment" := JStr "prod"]> (<["remoteAddress" := JStr "1.2.3.4"]> ∅))).
  { rewrite (createContext_run Samples.bare_request (Samples.world_with_query ∅) ∅)
      by reflexivity.
    cbn. apply lookup_insert_eq. }
  split; [reflexivity|]. split; [exact Hafter|].
  rewrite Hafter. intros Heq.
  assert (Hbefore : ProxyController.heap (Samples.world_with_query ∅)
                      !! query Samples.bare_request = Some ∅) by reflexivity.
  rewrite Hbefore in Heq.
  apply (f_equal (fun o : option (gmap string JsValue) =>
                    o ≫= (fun m => m !! "environment"))) in Heq.
  cbn in Heq. rewrite lookup_insert_eq, lookup_empty in Heq. discriminate.
Qed.

(** C3, as the code has it, at the spoofed query. *)
Lemma createContext_updates_query_in_place_witness :
  ProxyController.heap (Samples.world_with_query Samples.spoofed_query)
    !! query Samples.bare_request = Some Samples.spoofed_query /\
  let w' := snd (ProxyController.createContext Samples.bare_request
                   (Samples.world_with_query Samples.spoofed_query)) in
  ProxyController.heap w' !! query Samples.bare_request
    = Some (ProxyController.derived_query Samples.bare_request Samples.spoofed_query) /\
  (forall k, k <> "remoteAddress" -> k <> "environment" ->
             ProxyController.derived_query Samples.bare_request Samples.spoofed_query !! k
             = Samples.spoofed_query !! k) /\
  (forall l, l <> query Samples.bare_request ->
             ProxyController.heap w' !! l
             = ProxyController.heap (Samples.world_with_query Samples.spoofed_query) !! l) /\
  ProxyController.calls w' = [].
Proof.
  split; [reflexivity|].
  apply (createContext_updates_query_in_place Samples.bare_request
           (Samples.world_with_query Samples.spoofed_query) Samples.spoofed_query).
  reflexivity.
Defined.

(** C7 at [POST /] with an empty query. *)
Lemma stub_endpoints_answer_405_witness :
  In (ProxyController.POST, "") ProxyController.stub_endpoints /\
  ProxyController.serve Samples.idle_proxyService Samples.idle_openApiService
    (ProxyController.constructor {| ProxyController.frontendApiOrigins := [] |})
    ProxyController.POST "" Samples.bare_request (Samples.world_with_query ∅)
  = (Ok (Some ProxyController.not_implemented), Samples.world_with_query ∅).
Proof.
  split; [left; reflexivity|].
  apply (stub_endpoints_answer_405 Samples.idle_proxyService Samples.idle_openApiService
           {| ProxyController.frontendApiOrigins := [] |}
           ProxyController.POST "" Samples.bare_request (Samples.world_with_query ∅)).
  left; reflexivity.
Defined.

(** * Properties of the setting service *)

Section SettingServiceProperties.
Import SettingService.
Context {Value S E : Type}.
Variable settingStore : ISettingStore Value S.
Variable eventStore : IEventStore E.

Implicit Types (w : World Value S E) (id createdBy : string) (value : Value).

Lemma on_settingStore_run {A} (c : Call Value) (op : S -> Outcome A * S) w :
  on_settingStore c op w =
    (fst (op (settings w)),
     {| settings := snd (op (settings w)); events := events w;
        trace := trace w ++ [(c, is_ok (fst (op (settings w))))] |}).
Proof. unfold on_settingStore. destruct (op (settings w)); reflexivity. Qed.

Lemma on_eventStore_run {A} (c : Call Value) (op : E -> Outcome A * E) w :
  on_eventStore c op w =
    (fst (op (events w)),
     {| settings := settings w; events := snd (op (events w));
        trace := trace w ++ [(c, is_ok (fst (op (events w))))] |}).
Proof. unfold on_eventStore. destruct (op (events w)); reflexivity. Qed.

Lemma bind_run {W A B} (m : Prog W A) (k : A -> Prog W B) (w : W) :
  (m ≫= k) w =
    match fst (m w) with
    | Ok a => k a (snd (m w))
    | Throw e => (Throw e, snd (m w))
    end.
Proof.
  unfold mbind, Prog_bind, prog_bind. destruct (m w) as [[a|e] w']; reflexivity.
Qed.

(** C9. [get] only asks the setting store for the key: it issues no write
    and emits no event, and over a store whose [get] only reads it leaves
    the settings and the event log as they were. *)
Theorem get_is_a_pure_read id w :
  get_only_reads settingStore ->
  let r := fst (impl_get settingStore id (settings w)) in
  let new := [(SettingStore_get id, is_ok r)] in
  get settingStore id w =
    (r, {| settings := settings w; events := events w; trace := trace w ++ new |}) /\
  writes new = [] /\
  emitted new = [].
Proof.
  intros Hreads r new. split; [|split; reflexivity].
  unfold get, settingStore_get. rewrite on_settingStore_run.
  rewrite (Hreads id (settings w)). reflexivity.
Qed.

(** C10. When the existence check at the start of [insert] fails, the
    error reaches the caller, the existence check is the only call made:
    no write and no emission, and over a store whose [exists] only reads
    the settings and the event log are as they were. *)
Theorem insert_stops_when_exists_fails id value createdBy w e :
  exists_only_reads settingStore ->
  fst (impl_exists settingStore id (settings w)) = Throw e ->
  let new := [(SettingStore_exists id, false)] in
  insert settingStore eventStore id value createdBy w =
    (Throw e, {| settings := settings w; events := events w;
                 trace := trace w ++ new |}) /\
  writes new = [] /\
  emitted new = [].
Proof.
  intros Hreads Hfail new. split; [|split; reflexivity].
  unfold insert. rewrite bind_run.
  unfold settingStore_exists. rewrite on_settingStore_run, Hfail; cbn.
  rewrite (Hreads id (settings w)). reflexivity.
Qed.

(** C5. [delete] asks the store to delete the key without checking that
    it exists and then emits one Deleted event tagged with the key and the
    principal: whenever the store accepts the deletion and the event store
    accepts the event, [delete] returns normally after exactly these two
    calls, whether or not the key was there. *)
Theorem delete_is_unconditional id createdBy w s' e' :
  impl_delete settingStore id (settings w) = (Ok tt, s') ->
  impl_store eventStore (SettingDeletedEvent createdBy {| id := id |}) (events w)
    = (Ok tt, e') ->
  let event := SettingDeletedEvent createdBy {| id := id |} in
  let new := [(SettingStore_delete id, true); (EventStore_store event, true)] in
  delete settingStore eventStore id createdBy w =
    (Ok tt, {| settings := s'; events := e'; trace := trace w ++ new |}) /\
  emitted new = [event] /\
  type event = SETTING_DELETED /\
  SettingService.createdBy event = createdBy /\
  data event = {| id := id |}.
Proof.
  intros Hdel Hstore event new. subst event new.
  split; [|repeat split].
  unfold delete. rewrite bind_run.
  unfold settingStore_delete, eventStore_store.
  rewrite on_settingStore_run, Hdel; cbn.
  rewrite on_eventStore_run; cbn. rewrite Hstore; cbn.
  rewrite <- app_assoc. reflexivity.
Qed.

(** C2. [insert] asks the store whether the key exists before anything
    else. When the store answers yes it updates the row and emits one
    Updated event; when it answers no it inserts and emits one Created
    event. The event carries the key and the principal and nothing of the
    value. Over a store that reads back what was written, with the write
    and the emission accepted, a [get] of the key afterwards returns the
    value. *)
Theorem insert_upserts_with_one_event id value createdBy w (present : bool) s' e' :
  exists_only_reads settingStore ->
  writes_read_back settingStore ->
  fst (impl_exists settingStore id (settings w)) = Ok present ->
  (if present then impl_updateRow settingStore id value (settings w)
   else impl_insert settingStore id value (settings w)) = (Ok tt, s') ->
  impl_store eventStore
    ((if present then SettingUpdatedEvent else SettingCreatedEvent)
       createdBy {| id := id |}) (events w) = (Ok tt, e') ->
  let event :=
    (if present then SettingUpdatedEvent else SettingCreatedEvent)
      createdBy {| id := id |} in
  let new :=
    [ (SettingStore_exists id, true);
      (if present then SettingStore_updateRow id value
       else SettingStore_insert id value, true);
      (EventStore_store event, true) ] in
  let w' := {| settings := s'; events := e'; trace := trace w ++ new |} in
  insert settingStore eventStore id value createdBy w = (Ok tt, w') /\
  emitted new = [event] /\
  type event = (if present then SETTING_UPDATED else SETTING_CREATED) /\
  SettingService.createdBy event = createdBy /\
  data event = {| id := id |} /\
  fst (get settingStore id w') = Ok value.
Proof.
  intros Hreads Hback Hexists Hwrite Hstore event new w'.
  assert (Hrun : insert settingStore eventStore id value createdBy w = (Ok tt, w')).
  { unfold insert. rewrite bind_run.
    unfold settingStore_exists. rewrite on_settingStore_run, Hexists; cbn.
    rewrite (Hreads id (settings w)).
    subst w' new event. destruct present.
    - rewrite bind_run. unfold settingStore_updateRow, eventStore_store.
      rewrite on_settingStore_run; cbn. rewrite Hwrite; cbn.
      rewrite on_eventStore_run; cbn. rewrite Hstore; cbn.
      rewrite <- !app_assoc. reflexivity.
    - rewrite bind_run. unfold settingStore_insert, eventStore_store.
      rewrite on_settingStore_run; cbn. rewrite Hwrite; cbn.
      rewrite on_eventStore_run; cbn. rewrite Hstore; cbn.
      rewrite <- !app_assoc. reflexivity. }
  split; [exact Hrun|].
  split; [subst new; destruct present; reflexivity|].
  split; [subst event; destruct present; reflexivity|].
  split; [subst event; destruct present; reflexivity|].
  split; [subst event; destruct present; reflexivity|].
  unfold get, settingStore_get. rewrite on_settingStore_run; cbn.
  apply (Hback id value (settings w) s'). destruct present.
  - right. split; assumption.
  - left. assumption.
Qed.

Lemma audited_insert id value createdBy w :
  audited_after_write (insert settingStore eventStore id value createdBy) w.
Proof.
  unfold audited_after_write, insert. rewrite bind_run.
  unfold settingStore_exists. rewrite on_settingStore_run; cbn.
  destruct (impl_exists settingStore id (settings w)) as [[present|e] s1]; cbn.
  - destruct present; rewrite bind_run;
      unfold settingStore_updateRow, settingStore_insert, eventStore_store;
      rewrite on_settingStore_run; cbn.
    + destruct (impl_updateRow settingStore id value s1) as [[[]|e] s2]; cbn.
      * rewrite on_eventStore_run; cbn. eexists.
        split; [rewrite <- !app_assoc; reflexivity|].
        split; [reflexivity|]. cbn. intros c [Hc|[]]. discriminate.
      * eexists. split; [rewrite <- !app_assoc; reflexivity|].
        split; [reflexivity|]. intros c _. split; reflexivity.
    + destruct (impl_insert settingStore id value s1) as [[[]|e] s2]; cbn.
      * rewrite on_eventStore_run; cbn. eexists.
        split; [rewrite <- !app_assoc; reflexivity|].
        split; [reflexivity|]. cbn. intros c [Hc|[]]. discriminate.
      * eexists. split; [rewrite <- !app_assoc; reflexivity|].
        split; [reflexivity|]. intros c _. split; reflexivity.
  - eexists. split; [reflexivity|]. split; [reflexivity|].
    intros c _. split; reflexivity.
Qed.

Lemma audited_delete id createdBy w :
  audited_after_write (delete settingStore eventStore id createdBy) w.
Proof.
  unfold audited_after_write, delete. rewrite bind_run.
  unfold settingStore_delete, eventStore_store.
  rewrite on_settingStore_run; cbn.
  destruct (impl_delete settingStore id (settings w)) as [[[]|e] s1]; cbn.
  - rewrite on_eventStore_run; cbn. eexists.
    split; [rewrite <- !app_assoc; reflexivity|].
    split; [reflexivity|]. cbn. intros c [Hc|[]]. discriminate.
  - eexists. split; [reflexivity|]. split; [reflexivity|].
    intros c _. split; reflexivity.
Qed.

(** C4. In [insert] and in [delete] alike, and whatever the stores answer,
    the write to the setting store comes before the emission to the event
    store, and when the write fails no event is emitted: the event store
    is not called and its log is as before. *)
Theorem write_precedes_emission id value createdBy w :
  audited_after_write (insert settingStore eventStore id value createdBy) w /\
  audited_after_write (delete settingStore eventStore id createdBy) w.
Proof. split; [apply audited_insert | apply audited_delete]. Qed.

End SettingServiceProperties.

(** ** The stores held in memory meet what the service relies on *)

Lemma memSettingStore_get_only_reads {Value : Type} :
  SettingService.get_only_reads (InMemory.memSettingStore (Value := Value)).
Proof. intros id s. reflexivity. Qed.

Lemma memSettingStore_exists_only_reads {Value : Type} :
  SettingService.exists_only_reads (InMemory.memSettingStore (Value := Value)).
Proof. intros id s. reflexivity. Qed.

Lemma memSettingStore_reads_back {Value : Type} :
  SettingService.writes_read_back (InMemory.memSettingStore (Value := Value)).
Proof.
  intros id v s s' [Hins | [Hex Hupd]]; cbn in *.
  - injection Hins as <-. rewrite lookup_insert_eq. reflexivity.
  - injection Hupd as <-. rewrite lookup_alter_eq.
    destruct (s !! id); [reflexivity | discriminate].
Qed.

Lemma offlineSettingStore_exists_only_reads {Value : Type} :
  SettingService.exists_only_reads (InMemory.offlineSettingStore (Value := Value)).
Proof. intros id s. reflexivity. Qed.

(** C9 on a store that holds the key. *)
Lemma get_is_a_pure_read_witness :
  let w := InMemory.world_of {[ "theme" := "dark" ]} in
  SettingService.get InMemory.memSettingStore "theme" w =
    (Ok "dark",
     {| SettingService.settings := {[ "theme" := "dark" ]};
        SettingService.events := [];
        SettingService.trace := [(SettingService.SettingStore_get "theme", true)] |}).
Proof.
  exact (proj1 (get_is_a_pure_read InMemory.memSettingStore "theme"
                  (InMemory.world_of {[ "theme" := "dark" ]})
                  memSettingStore_get_only_reads)).
Defined.

(** C10 on a store that is offline. *)
Lemma insert_stops_when_exists_fails_witness :
  let w := InMemory.world_of {[ "theme" := "dark" ]} in
  fst (SettingService.impl_exists InMemory.offlineSettingStore "theme"
         (SettingService.settings w)) = Throw InMemory.PersistenceFailure /\
  SettingService.insert InMemory.offlineSettingStore InMemory.memEventStore
    "theme" "light" "admin" w =
    (Throw InMemory.PersistenceFailure,
     {| SettingService.settings := {[ "theme" := "dark" ]};
        SettingService.events := [];
        SettingService.trace := [(SettingService.SettingStore_exists "theme", false)] |}).
Proof.
  split; [reflexivity|].
  exact (proj1 (insert_stops_when_exists_fails
                  InMemory.offlineSettingStore InMemory.memEventStore
                  "theme" "light" "admin" (InMemory.world_of {[ "theme" := "dark" ]})
                  InMemory.PersistenceFailure
                  offlineSettingStore_exists_only_reads eq_refl)).
Defined.

(** C5 on a store that does not hold the key. *)
Lemma delete_is_unconditional_witness :
  let w := InMemory.world_of ∅ in
  let event := SettingService.SettingDeletedEvent "admin" {| SettingService.id := "theme" |} in
  SettingService.settings w !! "theme" = None /\
  SettingService.delete InMemory.memSettingStore InMemory.memEventStore "theme" "admin" w =
    (Ok tt,
     {| SettingService.settings := base.delete "theme" ∅;
        SettingService.events := [event];
        SettingService.trace :=
          [(SettingService.SettingStore_delete "theme", true);
           (SettingService.EventStore_store event, true)] |}).
Proof.
  split; [reflexivity|].
  exact (proj1 (delete_is_unconditional InMemory.memSettingStore InMemory.memEventStore
                  "theme" "admin" (InMemory.world_of ∅)
                  (base.delete "theme" ∅)
                  [SettingService.SettingDeletedEvent "admin"
                     {| SettingService.id := "theme" |}]
                  eq_refl eq_refl)).
Defined.

(** C2 on a store that holds the key (an update) and on one that does not
    (a creation). *)
Lemma insert_upserts_with_one_event_witness :
  let updated := SettingService.SettingUpdatedEvent "admin" {| SettingService.id := "theme" |} in
  let created := SettingService.SettingCreatedEvent "admin" {| SettingService.id := "theme" |} in
  let w1 := snd (SettingService.insert InMemory.memSettingStore InMemory.memEventStore
                   "theme" "light" "admin" (InMemory.world_of {[ "theme" := "dark" ]})) in
  let w0 := snd (SettingService.insert InMemory.memSettingStore InMemory.memEventStore
                   "theme" "light" "admin" (InMemory.world_of ∅)) in
  (SettingService.events w1 = [updated] /\
   fst (SettingService.get InMemory.memSettingStore "theme" w1) = Ok "light") /\
  (SettingService.events w0 = [created] /\
   fst (SettingService.get InMemory.memSettingStore "theme" w0) = Ok "light").
Proof.
  cbv zeta. split.
  - pose proof (insert_upserts_with_one_event
                  InMemory.memSettingStore InMemory.memEventStore
                  "theme" "light" "admin" (InMemory.world_of {[ "theme" := "dark" ]})
                  true
                  (alter (fun _ => "light") "theme" {[ "theme" := "dark" ]})
                  [SettingService.SettingUpdatedEvent "admin"
                     {| SettingService.id := "theme" |}]
                  memSettingStore_exists_only_reads memSettingStore_reads_back) as H.
    destruct H as (Hrun & _ & _ & _ & _ & Hget); [reflexivity ..|].
    rewrite Hrun. split; [reflexivity | exact Hget].
  - pose proof (insert_upserts_with_one_event
                  InMemory.memSettingStore InMemory.memEventStore
                  "theme" "light" "admin" (InMemory.world_of ∅)
                  false
                  (<[ "theme" := "light" ]> ∅)
                  [SettingService.SettingCreatedEvent "admin"
                     {| SettingService.id := "theme" |}]
                  memSettingStore_exists_only_reads memSettingStore_reads_back) as H.
    destruct H as (Hrun & _ & _ & _ & _ & Hget); [reflexivity ..|].
    rewrite Hrun. split; [reflexivity | exact Hget].
Defined.

(** * Further properties of the controller *)

Section ProxyControllerHandlers.
Import ProxyController.
Context {ReqBody Toggle : Type}.
Variable proxyService : ProxyService ReqBody Toggle.
Variable openApiService : OpenApiService Toggle.

Implicit Types (req : ApiUserRequest ReqBody) (w : World ReqBody Toggle).
Implicit Types (q : gmap string JsValue).

Lemma js_or_absorbs (a : option JsValue) (b : JsValue) :
  js_or (Some (js_or a b)) b = js_or a b.
Proof.
  assert (Hb : js_or (Some b) b = b).
  { unfold js_or. destruct (truthy (Some b)); reflexivity. }
  destruct a as [v|]; [|exact Hb].
  destruct (truthy (Some v)) eqn:Hv.
  - assert (Hkept : js_or (Some v) b = v) by (unfold js_or; rewrite Hv; reflexivity).
    rewrite !Hkept. reflexivity.
  - assert (Hrepl : js_or (Some v) b = b) by (unfold js_or; rewrite Hv; reflexivity).
    rewrite Hrepl. exact Hb.
Qed.

Lemma derived_query_idempotent req q :
  derived_query req (derived_query req q) = derived_query req q.
Proof.
  apply map_eq; intros k.
  destruct (decide (k = "environment")) as [->|Henv].
  - rewrite !derived_query_environment. reflexivity.
  - destruct (decide (k = "remoteAddress")) as [->|Hra].
    + rewrite derived_query_remoteAddress.
      rewrite !derived_query_remoteAddress.
      rewrite js_or_absorbs. reflexivity.
    + rewrite derived_query_other by assumption. reflexivity.
Qed.

(** X1. Building the context a second time for the same request changes
    nothing: it returns the same context and leaves the query object as the
    first build left it. *)
Theorem createContext_is_idempotent req w q :
  heap w !! query req = Some q ->
  (createContext req ≫= fun _ => createContext req) w = createContext req w.
Proof.
  intros Hq. rewrite bind_run, (createContext_run _ _ _ Hq); cbn.
  rewrite (createContext_run req _ (derived_query req q)); cbn.
  - rewrite derived_query_idempotent, insert_insert_eq. reflexivity.
  - apply lookup_insert_eq.
Qed.

(** X2. When the evaluation service answers, [getProxyFeatures] has asked it
    once, for the authenticated identity and the context built from the
    request, whose [environment] is the identity's; it then hands exactly
    the toggles it received to the validating responder with status 200,
    and its own answer is that responder's. *)
Theorem getProxyFeatures_asks_once_then_responds req res w q toggles :
  heap w !! query req = Some q ->
  getProxyFeatures_answer proxyService (user req) (derived_query req q) = Ok toggles ->
  let context := derived_query req q in
  getProxyFeatures proxyService openApiService req res w =
    (respondWithValidation_answer openApiService 200 res "proxyFeaturesSchema.$id" toggles,
     {| heap := <[query req := context]> (heap w);
        calls := calls w ++
                 [ ProxyService_getProxyFeatures (user req) context;
                   OpenApiService_respondWithValidation 200 "proxyFeaturesSchema.$id"
                     toggles ] |}) /\
  context !! "environment" = Some (JStr (environment (user req))).
Proof.
  intros Hq Hanswer context. subst context.
  split; [|apply derived_query_environment].
  unfold getProxyFeatures. rewrite bind_run, (createContext_run _ _ _ Hq); cbn.
  rewrite bind_run. unfold proxyService_getProxyFeatures; cbn. rewrite Hanswer; cbn.
  unfold openApiService_respondWithValidation, log_call; cbn.
  rewrite <- app_assoc. reflexivity.
Qed.

(** X3. When the evaluation service fails, [getProxyFeatures] fails with the
    same error and writes no response: the responder is not called. The
    query object of the request has been rewritten all the same. *)
Theorem getProxyFeatures_fails_with_the_service req res w q e :
  heap w !! query req = Some q ->
  getProxyFeatures_answer proxyService (user req) (derived_query req q) = Throw e ->
  getProxyFeatures proxyService openApiService req res w =
    (Throw e,
     {| heap := <[query req := derived_query req q]> (heap w);
        calls := calls w ++
                 [ ProxyService_getProxyFeatures (user req) (derived_query req q) ] |}).
Proof.
  intros Hq Hanswer.
  unfold getProxyFeatures. rewrite bind_run, (createContext_run _ _ _ Hq); cbn.
  rewrite bind_run. unfold proxyService_getProxyFeatures; cbn. rewrite Hanswer; cbn.
  reflexivity.
Qed.

(** X4. [registerProxyMetrics] passes the identity, the body and the
    address observed by the transport to the metrics service, once, and
    never touches the heap, so a [remoteAddress] in the query plays no part.
    It answers 200 only when the service accepted the payload; a failure of
    the service is the failure of the handler. *)
Theorem registerProxyMetrics_forwards_observed_address req res w :
  let run := registerProxyMetrics proxyService req res w in
  let answer := registerProxyMetrics_answer proxyService (user req) (body req) (ip req) in
  heap (snd run) = heap w /\
  calls (snd run) =
    (calls w ++ [ProxyService_registerProxyMetrics (user req) (body req) (ip req)])%list /\
  (forall res', fst run = Ok res' -> answer = Ok tt /\ statusCode res' = 200) /\
  (forall e, answer = Throw e -> fst run = Throw e).
Proof.
  cbv zeta. unfold registerProxyMetrics. rewrite bind_run.
  unfold proxyService_registerProxyMetrics; cbn.
  destruct (registerProxyMetrics_answer proxyService (user req) (body req) (ip req))
    as [[]|e0]; cbn.
  - split; [reflexivity|]. split; [reflexivity|]. split.
    + intros res' Hrun. injection Hrun as <-. split; reflexivity.
    + intros e He. discriminate.
  - split; [reflexivity|]. split; [reflexivity|]. split.
    + intros res' Hrun. discriminate.
    + intros e He. injection He as <-. reflexivity.
Qed.

(** X5. Every route the constructor declares is the one a request for its
    method and path is matched to, so no declaration is shadowed by an
    earlier one, and every route is open to any authenticated caller
    (permission [NONE]), whatever the configuration. *)
Theorem declared_routes_are_reachable config o :
  In o (routes (constructor config)) ->
  lookup_route (constructor config) (method o) (path o) = Some o /\
  permission o = NONE.
Proof.
  intros Hin. cbn in Hin.
  repeat (destruct Hin as [<- | Hin]; [split; reflexivity|]).
  destruct Hin.
Qed.

(** X6. The constructor installs the CORS middleware exactly when the
    configured list of frontend origins is not empty, and then for that very
    list; the routes it declares do not depend on the configuration. *)
Theorem cors_installed_iff_origins_configured config :
  (uses (constructor config) = [] <-> frontendApiOrigins config = []) /\
  (frontendApiOrigins config <> [] ->
   uses (constructor config) = [CorsOriginMiddleware (frontendApiOrigins config)]) /\
  (forall config', routes (constructor config') = routes (constructor config)).
Proof.
  unfold constructor; cbn.
  destruct (frontendApiOrigins config) as [|origin origins]; cbn.
  - split; [split; reflexivity|]. split; [congruence | reflexivity].
  - split; [split; discriminate|]. split; [reflexivity | reflexivity].
Qed.


End ProxyControllerHandlers.

(** * Further properties of the setting service *)

Section SettingServiceRuns.
Import SettingService.
Local Open Scope list_scope.
Context {Value S E : Type}.
Variable settingStore : ISettingStore Value S.
Variable eventStore : IEventStore E.

Implicit Types (w : World Value S E) (id createdBy : string) (value : Value).

(** One run of [insert], by the answers of the stores. *)
Lemma insert_run id value createdBy w :
  let ex := impl_exists settingStore id (settings w) in
  insert settingStore eventStore id value createdBy w =
    match fst ex with
    | Throw e =>
        (Throw e, {| settings := snd ex; events := events w;
                     trace := trace w ++ [(SettingStore_exists id, false)] |})
    | Ok present =>
        let wr := if present then impl_updateRow settingStore id value (snd ex)
                  else impl_insert settingStore id value (snd ex) in
        match fst wr with
        | Throw e =>
            (Throw e, {| settings := snd wr; events := events w;
                         trace := trace w ++ [(SettingStore_exists id, true);
                                              (upsert_write present id value, false)] |})
        | Ok _ =>
            let st := impl_store eventStore (upsert_event present createdBy id) (events w) in
            (fst st, {| settings := snd wr; events := snd st;
                        trace := trace w ++ [(SettingStore_exists id, true);
                                             (upsert_write present id value, true);
                                             (EventStore_store
                                                (upsert_event present createdBy id),
                                              is_ok (fst st))] |})
        end
    end.
Proof.
  cbv zeta. unfold insert. rewrite bind_run.
  unfold settingStore_exists. rewrite on_settingStore_run; cbn.
  destruct (fst (impl_exists settingStore id (settings w))) as [present|e]; cbn;
    [|reflexivity].
  destruct present; rewrite bind_run;
    unfold settingStore_updateRow, settingStore_insert, eventStore_store;
    rewrite on_settingStore_run; cbn.
  - destruct (fst (impl_updateRow settingStore id value _)) as [[]|e]; cbn.
    + rewrite on_eventStore_run; cbn. rewrite <- !app_assoc. reflexivity.
    + rewrite <- !app_assoc. reflexivity.
  - destruct (fst (impl_insert settingStore id value _)) as [[]|e]; cbn.
    + rewrite on_eventStore_run; cbn. rewrite <- !app_assoc. reflexivity.
    + rewrite <- !app_assoc. reflexivity.
Qed.

(** One run of [delete], by the answers of the stores. *)
Lemma delete_run id createdBy w :
  let del := impl_delete settingStore id (settings w) in
  let event := SettingDeletedEvent createdBy {| id := id |} in
  delete settingStore eventStore id createdBy w =
    match fst del with
    | Throw e =>
        (Throw e, {| settings := snd del; events := events w;
                     trace := trace w ++ [(SettingStore_delete id, false)] |})
    | Ok _ =>
        let st := impl_store eventStore event (events w) in
        (fst st, {| settings := snd del; events := snd st;
                    trace := trace w ++ [(SettingStore_delete id, true);
                                         (EventStore_store event, is_ok (fst st))] |})
    end.
Proof.
  cbv zeta. unfold delete. rewrite bind_run.
  unfold settingStore_delete, eventStore_store. rewrite on_settingStore_run; cbn.
  destruct (fst (impl_delete settingStore id (settings w))) as [[]|e]; cbn.
  - rewrite on_eventStore_run; cbn. rewrite <- !app_assoc. reflexivity.
  - reflexivity.
Qed.

(** X8. Whatever the stores answer, one call of [insert] issues one of
    three sequences of store calls: the existence check alone, when it
    fails; the check and one write, when the write fails; the check, one
    write and one emission. The write is [updateRow] and the event Updated
    when the store reported the key present, [insert] and Created when it
    reported it absent; there is never a second write, a [get], a [delete]
    or an event of the other kind. *)
Theorem insert_call_sequences id value createdBy w :
  exists new,
    trace (snd (insert settingStore eventStore id value createdBy w)) = trace w ++ new /\
    match fst (impl_exists settingStore id (settings w)) with
    | Throw _ => new = [(SettingStore_exists id, false)]
    | Ok present =>
        new = [(SettingStore_exists id, true); (upsert_write present id value, false)] \/
        exists stored,
          new = [(SettingStore_exists id, true); (upsert_write present id value, true);
                 (EventStore_store (upsert_event present createdBy id), stored)]
    end.
Proof.
  rewrite insert_run; cbv zeta.
  destruct (fst (impl_exists settingStore id (settings w))) as [present|e]; cbn.
  - destruct (fst (if present
                   then impl_updateRow settingStore id value _
                   else impl_insert settingStore id value _)) as [[]|e]; cbn.
    + eexists. split; [reflexivity|]. right. eexists. reflexivity.
    + eexists. split; [reflexivity|]. left. reflexivity.
  - eexists. split; reflexivity.
Qed.

(** X9. Whatever the stores answer, one call of [delete] issues either the
    deletion alone, when it fails, or the deletion and one emission of the
    Deleted event for the key and the principal; it never asks whether the
    key exists and never reads or writes a value. *)
Theorem delete_call_sequences id createdBy w :
  exists new,
    trace (snd (delete settingStore eventStore id createdBy w)) = trace w ++ new /\
    (new = [(SettingStore_delete id, false)] \/
     exists stored,
       new = [(SettingStore_delete id, true);
              (EventStore_store (SettingDeletedEvent createdBy {| id := id |}), stored)]).
Proof.
  rewrite delete_run; cbv zeta.
  destruct (fst (impl_delete settingStore id (settings w))) as [[]|e]; cbn.
  - eexists. split; [reflexivity|]. right. eexists. reflexivity.
  - eexists. split; [reflexivity|]. left. reflexivity.
Qed.

(** X10. The service swallows no error and raises none of its own: [get],
    [insert] and [delete] each return normally exactly when every store
    call they issued returned normally. *)
Theorem service_fails_iff_a_store_call_failed id value createdBy w :
  fails_iff_a_call_failed (get settingStore id) w /\
  fails_iff_a_call_failed (insert settingStore eventStore id value createdBy) w /\
  fails_iff_a_call_failed (delete settingStore eventStore id createdBy) w.
Proof.
  unfold fails_iff_a_call_failed. split; [|split].
  - unfold get, settingStore_get. rewrite on_settingStore_run; cbn.
    eexists. split; [reflexivity|]. cbn. rewrite andb_true_r. reflexivity.
  - rewrite insert_run; cbv zeta.
    destruct (fst (impl_exists settingStore id (settings w))) as [present|e]; cbn.
    + destruct (fst (if present
                     then impl_updateRow settingStore id value _
                     else impl_insert settingStore id value _)) as [[]|e]; cbn.
      * eexists. split; [reflexivity|]. cbn. rewrite andb_true_r. reflexivity.
      * eexists. split; reflexivity.
    + eexists. split; reflexivity.
  - rewrite delete_run; cbv zeta.
    destruct (fst (impl_delete settingStore id (settings w))) as [[]|e]; cbn.
    + eexists. split; [reflexivity|]. cbn. rewrite andb_true_r. reflexivity.
    + eexists. split; reflexivity.
Qed.

(** The run of [insert] in which the store answers the check and accepts
    the write. *)
Lemma insert_written id value createdBy w (present : bool) s' :
  exists_only_reads settingStore ->
  fst (impl_exists settingStore id (settings w)) = Ok present ->
  (if present then impl_updateRow settingStore id value (settings w)
   else impl_insert settingStore id value (settings w)) = (Ok tt, s') ->
  let st := impl_store eventStore (upsert_event present createdBy id) (events w) in
  insert settingStore eventStore id value createdBy w =
    (fst st, {| settings := s'; events := snd st;
                trace := trace w ++ [(SettingStore_exists id, true);
                                     (upsert_write present id value, true);
                                     (EventStore_store (upsert_event present createdBy id),
                                      is_ok (fst st))] |}).
Proof.
  intros Hreads Hexists Hwrite. cbv zeta.
  rewrite insert_run; cbv zeta.
  rewrite Hexists, (Hreads id (settings w)), Hwrite; cbn. reflexivity.
Qed.

(** X11. [insert] does not undo its write: when the store accepted the
    write and the event store then rejects the event, [insert] fails with
    the event store's error while the setting store stays as the write left
    it, so that over a store that reads back what was written a [get] of
    the key returns the new value although no event records the change. *)
Theorem insert_keeps_write_when_emission_fails id value createdBy w
    (present : bool) s' e' e :
  exists_only_reads settingStore ->
  writes_read_back settingStore ->
  fst (impl_exists settingStore id (settings w)) = Ok present ->
  (if present then impl_updateRow settingStore id value (settings w)
   else impl_insert settingStore id value (settings w)) = (Ok tt, s') ->
  impl_store eventStore (upsert_event present createdBy id) (events w) = (Throw e, e') ->
  let w' := {| settings := s'; events := e';
               trace := trace w ++ [(SettingStore_exists id, true);
                                    (upsert_write present id value, true);
                                    (EventStore_store (upsert_event present createdBy id),
                                     false)] |} in
  insert settingStore eventStore id value createdBy w = (Throw e, w') /\
  fst (get settingStore id w') = Ok value.
Proof.
  intros Hreads Hback Hexists Hwrite Hstore w'. subst w'. split.
  - rewrite (insert_written _ _ _ _ _ _ Hreads Hexists Hwrite); cbv zeta.
    rewrite Hstore. reflexivity.
  - unfold get, settingStore_get. rewrite on_settingStore_run; cbn.
    apply (Hback id value (settings w) s'). destruct present.
    + right. split; assumption.
    + left. assumption.
Qed.

(** X12. [delete] does not undo its deletion: when the store accepted the
    deletion and the event store then rejects the event, [delete] fails with
    the event store's error and the setting store stays as the deletion left
    it. *)
Theorem delete_keeps_deletion_when_emission_fails id createdBy w s' e' e :
  impl_delete settingStore id (settings w) = (Ok tt, s') ->
  impl_store eventStore (SettingDeletedEvent createdBy {| id := id |}) (events w)
    = (Throw e, e') ->
  delete settingStore eventStore id createdBy w =
    (Throw e,
     {| settings := s'; events := e';
        trace := trace w ++
                 [(SettingStore_delete id, true);
                  (EventStore_store (SettingDeletedEvent createdBy {| id := id |}),
                   false)] |}).
Proof.
  intros Hdel Hstore. rewrite delete_run; cbv zeta.
  rewrite Hdel; cbn. rewrite Hstore. reflexivity.
Qed.

(** X13. Two calls of [insert] for one key in a row, on a store that did
    not hold the key and reports it present after the first call, with
    every write and emission accepted: the first call inserts and emits
    Created for its principal, the second updates and emits Updated for its
    own, in that order, and the store ends as the update left it. *)
Theorem insert_twice_creates_then_updates id value1 value2 principal1 principal2 w
    s1 s2 e1 e2 :
  exists_only_reads settingStore ->
  fst (impl_exists settingStore id (settings w)) = Ok false ->
  impl_insert settingStore id value1 (settings w) = (Ok tt, s1) ->
  impl_store eventStore (SettingCreatedEvent principal1 {| id := id |}) (events w)
    = (Ok tt, e1) ->
  fst (impl_exists settingStore id s1) = Ok true ->
  impl_updateRow settingStore id value2 s1 = (Ok tt, s2) ->
  impl_store eventStore (SettingUpdatedEvent principal2 {| id := id |}) e1
    = (Ok tt, e2) ->
  let new :=
    [ (SettingStore_exists id, true); (SettingStore_insert id value1, true);
      (EventStore_store (SettingCreatedEvent principal1 {| id := id |}), true);
      (SettingStore_exists id, true); (SettingStore_updateRow id value2, true);
      (EventStore_store (SettingUpdatedEvent principal2 {| id := id |}), true) ] in
  (insert settingStore eventStore id value1 principal1 ≫=
     fun _ => insert settingStore eventStore id value2 principal2) w =
    (Ok tt, {| settings := s2; events := e2; trace := trace w ++ new |}) /\
  emitted new = [ SettingCreatedEvent principal1 {| id := id |};
                  SettingUpdatedEvent principal2 {| id := id |} ].
Proof.
  intros Hreads Hex1 Hins Hst1 Hex2 Hupd Hst2 new. subst new.
  split; [|reflexivity].
  rewrite bind_run.
  rewrite (insert_written id value1 principal1 w false s1 Hreads Hex1 Hins); cbv zeta.
  unfold upsert_event, upsert_write. rewrite Hst1; cbn.
  erewrite (insert_written id value2 principal2 _ true s2 Hreads);
    [| exact Hex2 | exact Hupd].
  cbv zeta. unfold upsert_event, upsert_write; cbn. rewrite Hst2; cbn.
  rewrite <- !app_assoc. reflexivity.
Qed.

End SettingServiceRuns.

(** ** The further properties at sample inputs *)

(** X1 at the spoofed query. *)
Lemma createContext_is_idempotent_witness :
  ProxyController.heap (Samples.world_with_query Samples.spoofed_query)
    !! query Samples.bare_request = Some Samples.spoofed_query /\
  (ProxyController.createContext Samples.bare_request ≫=
     fun _ => ProxyController.createContext Samples.bare_request)
    (Samples.world_with_query Samples.spoofed_query)
  = ProxyController.createContext Samples.bare_request
      (Samples.world_with_query Samples.spoofed_query).
Proof.
  split; [reflexivity|].
  apply (createContext_is_idempotent Samples.bare_request
           (Samples.world_with_query Samples.spoofed_query) Samples.spoofed_query).
  reflexivity.
Defined.

(** X2 with an evaluation service that knows no toggle. *)
Lemma getProxyFeatures_asks_once_then_responds_witness :
  let run := ProxyController.getProxyFeatures Samples.idle_proxyService
               Samples.idle_openApiService Samples.bare_request fresh_response
               (Samples.world_with_query Samples.spoofed_query) in
  fst run = Ok fresh_response /\
  ProxyController.calls (snd run) =
    [ ProxyController.ProxyService_getProxyFeatures {| environment := "prod" |}
        (ProxyController.derived_query Samples.bare_request Samples.spoofed_query);
      ProxyController.OpenApiService_respondWithValidation 200
        "proxyFeaturesSchema.$id" [] ].
Proof.
  cbv zeta.
  pose proof (getProxyFeatures_asks_once_then_responds
                Samples.idle_proxyService Samples.idle_openApiService
                Samples.bare_request fresh_response
                (Samples.world_with_query Samples.spoofed_query)
                Samples.spoofed_query []) as H.
  destruct H as [Hrun _]; [reflexivity | reflexivity |].
  rewrite Hrun. split; reflexivity.
Defined.

(** X3 with an evaluation service that is down. *)
Lemma getProxyFeatures_fails_with_the_service_witness :
  let run := ProxyController.getProxyFeatures Samples.failing_proxyService
               Samples.idle_openApiService Samples.bare_request fresh_response
               (Samples.world_with_query ∅) in
  fst run = Throw (JsError "Error" "evaluation failed") /\
  ProxyController.calls (snd run) =
    [ ProxyController.ProxyService_getProxyFeatures {| environment := "prod" |}
        (ProxyController.derived_query Samples.bare_request ∅) ].
Proof.
  cbv zeta.
  pose proof (getProxyFeatures_fails_with_the_service
                Samples.failing_proxyService Samples.idle_openApiService
                Samples.bare_request fresh_response (Samples.world_with_query ∅) ∅
                (JsError "Error" "evaluation failed")) as H.
  rewrite H by reflexivity. split; reflexivity.
Defined.

(** X5 at the metrics route. *)
Lemma declared_routes_are_reachable_witness :
  let config := {| ProxyController.frontendApiOrigins := ["https://app.example"] |} in
  let o := {| ProxyController.method := ProxyController.POST;
              ProxyController.path := "/client/metrics";
              ProxyController.handler := ProxyController.RegisterProxyMetrics;
              ProxyController.permission := ProxyController.NONE;
              ProxyController.middleware :=
                [ProxyController.ValidPath "registerFrontendMetrics"] |} in
  In o (ProxyController.routes (ProxyController.constructor config)) /\
  ProxyController.lookup_route (ProxyController.constructor config)
    ProxyController.POST "/client/metrics" = Some o.
Proof.
  cbv zeta. split; [do 3 right; left; reflexivity|].
  apply (declared_routes_are_reachable
           {| ProxyController.frontendApiOrigins := ["https://app.example"] |}
           {| ProxyController.method := ProxyController.POST;
              ProxyController.path := "/client/metrics";
              ProxyController.handler := ProxyController.RegisterProxyMetrics;
              ProxyController.permission := ProxyController.NONE;
              ProxyController.middleware :=
                [ProxyController.ValidPath "registerFrontendMetrics"] |}).
  do 3 right; left; reflexivity.
Defined.


(** X11 on an empty store in memory and an event store that is offline. *)
Lemma insert_keeps_write_when_emission_fails_witness :
  let w' := snd (SettingService.insert InMemory.memSettingStore InMemory.offlineEventStore
                   "theme" "dark" "admin" (InMemory.world_of ∅)) in
  fst (SettingService.insert InMemory.memSettingStore InMemory.offlineEventStore
         "theme" "dark" "admin" (InMemory.world_of ∅))
    = Throw InMemory.PersistenceFailure /\
  SettingService.events w' = [] /\
  fst (SettingService.get InMemory.memSettingStore "theme" w') = Ok "dark".
Proof.
  cbv zeta.
  pose proof (insert_keeps_write_when_emission_fails
                InMemory.memSettingStore InMemory.offlineEventStore
                "theme" "dark" "admin" (InMemory.world_of ∅) false
                (<[ "theme" := "dark" ]> ∅) [] InMemory.PersistenceFailure
                memSettingStore_exists_only_reads memSettingStore_reads_back) as H.
  destruct H as [Hrun Hget]; [reflexivity ..|].
  rewrite Hrun. split; [reflexivity|]. split; [reflexivity | exact Hget].
Defined.

(** X12 on a store in memory that holds the key and an event store that is
    offline. *)
Lemma delete_keeps_deletion_when_emission_fails_witness :
  let run := SettingService.delete InMemory.memSettingStore InMemory.offlineEventStore
               "theme" "admin" (InMemory.world_of {[ "theme" := "dark" ]}) in
  fst run = Throw InMemory.PersistenceFailure /\
  SettingService.settings (snd run) !! "theme" = None.
Proof.
  cbv zeta.
  pose proof (delete_keeps_deletion_when_emission_fails
                InMemory.memSettingStore InMemory.offlineEventStore
                "theme" "admin" (InMemory.world_of {[ "theme" := "dark" ]})
                (base.delete "theme" {[ "theme" := "dark" ]}) []
                InMemory.PersistenceFailure) as H.
  rewrite H by reflexivity. split; [reflexivity|]. cbn. apply lookup_delete_eq.
Defined.

(** X13 on an empty store in memory. *)
Lemma insert_twice_creates_then_updates_witness :
  let run := (SettingService.insert InMemory.memSettingStore InMemory.memEventStore
                "theme" "dark" "alice" ≫=
              fun _ => SettingService.insert InMemory.memSettingStore
                         InMemory.memEventStore "theme" "light" "bob")
               (InMemory.world_of ∅) in
  fst run = Ok tt /\
  SettingService.events (snd run) =
    [ SettingService.SettingCreatedEvent "alice" {| SettingService.id := "theme" |};
      SettingService.SettingUpdatedEvent "bob" {| SettingService.id := "theme" |} ].
Proof.
  cbv zeta.
  pose proof (insert_twice_creates_then_updates
                InMemory.memSettingStore InMemory.memEventStore
                "theme" "dark" "light" "alice" "bob" (InMemory.world_of ∅)
                (<[ "theme" := "dark" ]> ∅)
                (alter (fun _ => "light") "theme" (<[ "theme" := "dark" ]> ∅))
                [SettingService.SettingCreatedEvent "alice"
                   {| SettingService.id := "theme" |}]
                [SettingService.SettingCreatedEvent "alice"
                   {| SettingService.id := "theme" |};
                 SettingService.SettingUpdatedEvent "bob"
                   {| SettingService.id := "theme" |}]
                memSettingStore_exists_only_reads) as H.
  destruct H as [Hrun _]; [reflexivity ..|].
  rewrite Hrun. split; reflexivity.
Defined.
